(** * repo_miner: fetching and normalising commits and issues

    A shallow embedding of [src/repo_miner.py] (functions [fetch_commits]
    and [fetch_issues]) together with the properties of its normalisation
    contract.

    Conventions of the embedding:
    - a Python [int] is a [Z], a [str] is a [string], [None]-able
      attributes are [option]s;
    - a [datetime] is the number of microseconds of its instant on the time
      line, a [timedelta] the number of microseconds it spans;
    - a Python dict literal is an association list in insertion order;
    - raising is the [Raise] constructor of [result]; the calls made on
      the GitHub client are recorded, in order, next to the result. *)

From Stdlib Require Import ZArith List String Ascii Bool Lia.
Import ListNotations.

Local Open Scope string_scope.
Local Open Scope Z_scope.

(* ================================================================== *)
(** * Exceptions and results *)

(** The exceptions a fetch can end with.  The first three are the ones
    the GitHub client raises (rejected credentials, unknown repository,
    any other API or transport failure); [AttributeError] and [IndexError]
    are Python's own. *)
Inductive exception : Type :=
| BadCredentialsException (msg : string)
| UnknownObjectException (msg : string)
| GithubException (msg : string)
| AttributeError (msg : string)
| IndexError (msg : string).

Inductive result (A : Type) : Type :=
| Ok (a : A)
| Raise (e : exception).

Arguments Ok {A} a.
Arguments Raise {A} e.

(* ================================================================== *)
(** * The objects handed out by the GitHub client *)

Definition datetime := Z.
Definition timedelta := Z.

Definition usec_per_day : Z := 86400 * 1000000.

(** [closed - created] on two datetimes. *)
Definition datetime_sub (a b : datetime) : timedelta := a - b.

(** The [.days] attribute of a normalised [timedelta]: the seconds and
    microseconds fields are kept non-negative, so [days] is the floor. *)
Definition days (d : timedelta) : Z := d / usec_per_day.

Record GitAuthor : Type := {
  name : string;
  email : string;
  date : datetime
}.

Record GitCommit : Type := {
  author : option GitAuthor;
  message : string
}.

Record Commit : Type := {
  sha : string;
  commit : GitCommit
}.

Record NamedUser : Type := {
  login : string
}.

Record IssuePullRequest : Type := {
  html_url : string
}.

Record Issue : Type := {
  id : Z;
  number : Z;
  title : string;
  user : NamedUser;
  state : string;
  created_at : datetime;
  closed_at : option datetime;
  comments : Z;
  pull_request : option IssuePullRequest
}.

(** A paginated list: the entries come one at a time, and asking for the
    next one may raise (a page that fails to load). *)
Inductive paginated (A : Type) : Type :=
| PEnd
| PRaise (e : exception)
| PItem (a : A) (rest : paginated A).

Arguments PEnd {A}.
Arguments PRaise {A} e.
Arguments PItem {A} a rest.

Record Repository : Type := {
  get_commits : paginated Commit;
  get_issues : string -> paginated Issue
}.

Record GithubClient : Type := {
  get_repo : string -> result Repository
}.

(** What the module finds around it: the process environment and the
    [Github] constructor it imports. *)
Record Platform : Type := {
  environ : string -> option string;
  Github : option string -> GithubClient
}.

(* ================================================================== *)
(** * Row values, records and data frames *)

(** The values stored under the keys of a record dict. *)
Inductive value : Type :=
| VNone
| VInt (z : Z)
| VStr (s : string)
| VDatetime (t : datetime)
| VUser (u : NamedUser).

Definition dict := list (string * value).

Definition keys (d : dict) : list string := map fst d.

Fixpoint dict_get (k : string) (d : dict) : option value :=
  match d with
  | [] => None
  | (k', v) :: d' => if String.eqb k k' then Some v else dict_get k d'
  end.

Definition opt_value {A : Type} (f : A -> value) (o : option A) : value :=
  match o with
  | Some a => f a
  | None => VNone
  end.

(** A data frame: its column labels and, per row, one cell per column
    ([None] where the row's dict has no such key). *)
Record DataFrame : Type := {
  columns : list string;
  rows : list (list (option value))
}.

Definition mem_string (s : string) (l : list string) : bool :=
  existsb (String.eqb s) l.

(** Labels of [ks] not yet in [seen], appended in their order. *)
Fixpoint add_labels (seen ks : list string) : list string :=
  match ks with
  | [] => seen
  | k :: ks' =>
      if mem_string k seen then add_labels seen ks'
      else add_labels (seen ++ [k]) ks'
  end.

(** [pandas.DataFrame(records)] on a list of dicts: the columns are the
    keys in order of first appearance over the records (none at all for an
    empty list), the rows are the records in order. *)
Definition pd_DataFrame (records : list dict) : DataFrame :=
  let cols := fold_left (fun seen d => add_labels seen (keys d)) records [] in
  {| columns := cols;
     rows := map (fun d => map (fun c => dict_get c d) cols) records |}.

(** [len(df)]. *)
Definition len (df : DataFrame) : Z := Z.of_nat (List.length (rows df)).

(** The cell of a row under a column label. *)
Fixpoint cell_at (cols : list string) (row : list (option value)) (c : string)
  : option value :=
  match cols, row with
  | k :: cols', v :: row' => if String.eqb c k then v else cell_at cols' row' c
  | _, _ => None
  end.

Definition cell (df : DataFrame) (i : nat) (c : string) : option value :=
  match nth_error (rows df) i with
  | Some row => cell_at (columns df) row c
  | None => None
  end.

(* ================================================================== *)
(** * Python helpers *)

Definition newline : ascii := "010"%char.

(** [s.split(sep, 1)] for a one-character separator: the whole string when
    [sep] does not occur, else the part before its first occurrence and
    the part after it. *)
Fixpoint str_split1 (sep : ascii) (s : string) : list string :=
  match s with
  | EmptyString => [EmptyString]
  | String c s' =>
      if Ascii.eqb c sep then [EmptyString; s']
      else match str_split1 sep s' with
           | first :: others => String c first :: others
           | [] => []
           end
  end.

(** [l[0]]. *)
Definition index0 {A : Type} (l : list A) : result A :=
  match l with
  | x :: _ => Ok x
  | [] => Raise (IndexError "list index out of range")
  end.

(** Attribute access on [None]. *)
Definition none_has_no (attr : string) : exception :=
  AttributeError ("'NoneType' object has no attribute '" ++ attr ++ "'").

(** Truth value of an optional integer: [None] and [0] are false. *)
Definition truthy_int (o : option Z) : bool :=
  match o with
  | Some z => negb (z =? 0)
  | None => false
  end.

(** Truth value of an optional object: only [None] is false. *)
Definition truthy_obj {A : Type} (o : option A) : bool :=
  match o with
  | Some _ => true
  | None => false
  end.

(** The first [n] entries of a paginated list; entries past them are
    never asked for. *)
Fixpoint ptake {A : Type} (n : nat) (l : paginated A) : paginated A :=
  match n with
  | O => PEnd
  | S n' =>
      match l with
      | PEnd => PEnd
      | PRaise e => PRaise e
      | PItem a rest => PItem a (ptake n' rest)
      end
  end.

(** [l[:stop]] for a [stop] that is not negative: the first [stop]
    entries, on a plain Python list and on a paginated list alike;
    entries past them are never asked for.  For a negative [stop] this
    is the lazy slice of a paginated list only, whose iteration is
    finished at once and yields nothing; a plain Python list (the
    listing of the tests' [DummyRepo]) would drop its last entries
    instead, which this embedding does not describe.  The properties
    that speak of the size or the content of a capped table of commits
    are therefore stated for caps that are not negative. *)
Definition slice_to {A : Type} (stop : Z) (l : paginated A) : paginated A :=
  ptake (Z.to_nat stop) l.

(** A paginated list that yields the entries of [l] and then ends. *)
Fixpoint of_list {A : Type} (l : list A) : paginated A :=
  match l with
  | [] => PEnd
  | a :: l' => PItem a (of_list l')
  end.

(* ================================================================== *)
(** * Calls on the client, and the monad that records them *)

Inductive call : Type :=
| CallGithub (token : option string)
| CallGetRepo (repo_name : string)
| CallGetCommits
| CallGetIssues (state : string).

(** A computation: the calls it made, in order, and how it ended. *)
Definition Py (A : Type) : Type := (list call * result A)%type.

Definition ret {A : Type} (a : A) : Py A := ([], Ok a).

Definition bind {A B : Type} (m : Py A) (f : A -> Py B) : Py B :=
  match m with
  | (cs, Ok a) => let (cs', r) := f a in ((cs ++ cs')%list, r)
  | (cs, Raise e) => (cs, Raise e)
  end.

Definition lift {A : Type} (r : result A) : Py A := ([], r).

Definition calling {A : Type} (c : call) (r : result A) : Py A := ([c], r).

Notation "x <- m ;; f" := (bind m (fun x => f))
  (at level 61, m at next level, right associativity).

Definition calls {A : Type} (m : Py A) : list call := fst m.
Definition outcome {A : Type} (m : Py A) : result A := snd m.

(* ================================================================== *)
(** * fetch_commits *)

(** The dict built for one commit.  Its entries are evaluated in order, so
    an absent author raises at [commit.commit.author.name]. *)
Definition commit_record (c : Commit) : result dict :=
  match author (commit c) with
  | None => Raise (none_has_no "name")
  | Some a =>
      match index0 (str_split1 newline (message (commit c))) with
      | Raise e => Raise e
      | Ok first =>
          Ok [ ("sha", VStr (sha c));
               ("author", VStr (name a));
               ("email", VStr (email a));
               ("date", VDatetime (date a));
               ("message", VStr first) ]
      end
  end.

(** The loop [for commit in commits: dicts.append({...})]. *)
Fixpoint commits_loop (commits : paginated Commit) (dicts : list dict)
  : result (list dict) :=
  match commits with
  | PEnd => Ok dicts
  | PRaise e => Raise e
  | PItem c rest =>
      match commit_record c with
      | Ok d => commits_loop rest (dicts ++ [d])
      | Raise e => Raise e
      end
  end.

Definition fetch_commits (p : Platform) (repo_name : string)
  (max_commits : option Z) : Py DataFrame :=
  let token := environ p "GITHUB_TOKEN" in
  gh_client <- calling (CallGithub token) (Ok (Github p token)) ;;
  repo <- calling (CallGetRepo repo_name) (get_repo gh_client repo_name) ;;
  commits <- calling CallGetCommits (Ok (get_commits repo)) ;;
  let commits :=
    match max_commits with
    | Some n => slice_to n commits
    | None => commits
    end in
  dicts <- lift (commits_loop commits []) ;;
  ret (pd_DataFrame dicts).

(* ================================================================== *)
(** * fetch_issues *)

(** The dict built for one issue. *)
Definition issue_record (i : Issue) : dict :=
  [ ("id", VInt (id i));
    ("number", VInt (number i));
    ("title", VStr (title i));
    ("user", VUser (user i));
    ("state", VStr (state i));
    ("created_at", VDatetime (created_at i));
    ("closed_at", opt_value VDatetime (closed_at i));
    ("comments", VInt (comments i));
    ("open_duration_days",
       match closed_at i with
       | Some closed => VInt (days (datetime_sub closed (created_at i)))
       | None => VNone
       end) ].

(** The loop [for idx, issue in enumerate(issues)]: the next entry is
    taken first (which may raise), then the cap is tested against its
    index, then pull requests are skipped. *)
Fixpoint issues_loop (max_issues : option Z) (issues : paginated Issue)
  (idx : Z) (records : list dict) : result (list dict) :=
  match issues with
  | PEnd => Ok records
  | PRaise e => Raise e
  | PItem issue rest =>
      if truthy_int max_issues &&
         match max_issues with Some m => idx >=? m | None => false end
      then Ok records
      else if negb (truthy_obj (pull_request issue))
      then issues_loop max_issues rest (idx + 1) (records ++ [issue_record issue])
      else issues_loop max_issues rest (idx + 1) records
  end.

Definition fetch_issues (p : Platform) (repo_name : string) (state : string)
  (max_issues : option Z) : Py DataFrame :=
  let token := environ p "GITHUB_TOKEN" in
  gh_client <- calling (CallGithub token) (Ok (Github p token)) ;;
  repo <- calling (CallGetRepo repo_name) (get_repo gh_client repo_name) ;;
  issues <- calling (CallGetIssues state) (Ok (get_issues repo state)) ;;
  records <- lift (issues_loop max_issues issues 0 []) ;;
  ret (pd_DataFrame records).

(* ================================================================== *)
(** * The collaborator of the test suite *)

(** [DummyRepo] of the tests: commits as given, issues filtered by state
    unless the state is "all". *)
Definition DummyRepo (commits : list Commit) (issues : list Issue)
  : Repository :=
  {| get_commits := of_list commits;
     get_issues := fun st =>
       if String.eqb st "all" then of_list issues
       else of_list (filter (fun i => String.eqb (state i) st) issues) |}.

(** The patched environment of the tests: a fake token and a client that
    returns the fixture's repository whatever the name. *)
Definition dummy_platform (repo : Repository) : Platform :=
  {| environ := fun k =>
       if String.eqb k "GITHUB_TOKEN" then Some "fake-token" else None;
     Github := fun _ => {| get_repo := fun _ => Ok repo |} |}.

Definition DummyCommit (sha_ author_ email_ : string) (date_ : datetime)
  (message_ : string) : Commit :=
  {| sha := sha_;
     commit := {| author := Some {| name := author_; email := email_;
                                    date := date_ |};
                  message := message_ |} |}.

Definition DummyIssue (id_ number_ : Z) (title_ user_ state_ : string)
  (created : datetime) (closed : option datetime) (comments_ : Z)
  (is_pr : bool) : Issue :=
  {| id := id_; number := number_; title := title_;
     user := {| login := user_ |}; state := state_;
     created_at := created; closed_at := closed; comments := comments_;
     pull_request := if is_pr then Some {| html_url := "pr" |} else None |}.

(* ================================================================== *)
(** * Notions used to state the properties *)

(** The entries a paginated list yields before it ends or raises. *)
Fixpoint pitems {A : Type} (l : paginated A) : list A :=
  match l with
  | PItem a rest => a :: pitems rest
  | _ => []
  end.

(** The entries of [l], then the exception [e] on asking for one more. *)
Fixpoint then_raise {A : Type} (l : list A) (e : exception) : paginated A :=
  match l with
  | [] => PRaise e
  | a :: l' => PItem a (then_raise l' e)
  end.

(** An entry that is not flagged as a pull request. *)
Definition is_true_issue (i : Issue) : bool :=
  negb (truthy_obj (pull_request i)).

Definition true_issues (l : list Issue) : list Issue :=
  filter is_true_issue l.

(** Whether a character occurs in a string. *)
Fixpoint occurs (c : ascii) (s : string) : bool :=
  match s with
  | EmptyString => false
  | String c' s' => Ascii.eqb c' c || occurs c s'
  end.

(** The part of a string before the first occurrence of a character (all
    of it when there is none). *)
Fixpoint before_first (c : ascii) (s : string) : string :=
  match s with
  | EmptyString => EmptyString
  | String c' s' =>
      if Ascii.eqb c' c then EmptyString else String c' (before_first c s')
  end.

Definition commit_columns : list string :=
  ["sha"; "author"; "email"; "date"; "message"].

Definition issue_columns : list string :=
  ["id"; "number"; "title"; "user"; "state"; "created_at"; "closed_at";
   "comments"; "open_duration_days"].

(** The dict of a commit whose author is [a]. *)
Definition commit_dict (c : Commit) (a : GitAuthor) : dict :=
  [ ("sha", VStr (sha c));
    ("author", VStr (name a));
    ("email", VStr (email a));
    ("date", VDatetime (date a));
    ("message", VStr (before_first newline (message (commit c)))) ].

Definition has_author (c : Commit) : Prop := author (commit c) <> None.

(** The records of the commits of a list, in order. *)
Definition recorded (cs : list Commit) (ds : list dict) : Prop :=
  Forall2 (fun c d => commit_record c = Ok d) cs ds.

(** Row [i] of a table holds the fields of the commit [c]. *)
Definition commit_row (df : DataFrame) (i : nat) (c : Commit) : Prop :=
  exists a,
    author (commit c) = Some a /\
    cell df i "sha" = Some (VStr (sha c)) /\
    cell df i "author" = Some (VStr (name a)) /\
    cell df i "email" = Some (VStr (email a)) /\
    cell df i "date" = Some (VDatetime (date a)).

(** Row [i] of a table holds the identifying fields of the issue [x]. *)
Definition issue_row (df : DataFrame) (i : nat) (x : Issue) : Prop :=
  cell df i "id" = Some (VInt (id x)) /\
  cell df i "number" = Some (VInt (number x)) /\
  cell df i "title" = Some (VStr (title x)) /\
  cell df i "comments" = Some (VInt (comments x)).

(** The commits a fetch iterates over, once the cap is applied. *)
Definition retained (max_commits : option Z) (commits : paginated Commit)
  : paginated Commit :=
  match max_commits with
  | Some n => slice_to n commits
  | None => commits
  end.

(** The calls a fetch of commits makes when nothing raises. *)
Definition commit_calls (p : Platform) (repo_name : string) : list call :=
  [CallGithub (environ p "GITHUB_TOKEN"); CallGetRepo repo_name;
   CallGetCommits].

Definition issue_calls (p : Platform) (repo_name st : string) : list call :=
  [CallGithub (environ p "GITHUB_TOKEN"); CallGetRepo repo_name;
   CallGetIssues st].

(** The client a fetch builds. *)
Definition client (p : Platform) : GithubClient :=
  Github p (environ p "GITHUB_TOKEN").

(* ================================================================== *)
(** * Fixtures *)

Definition day : Z := usec_per_day.

(** 2025-10-02 00:00:00, in microseconds since 1970-01-01. *)
Definition t_2025_10_02 : datetime := 20363 * usec_per_day.

Definition now : datetime := 20400 * usec_per_day + 45000 * 1000000.

Definition commit_a : Commit :=
  DummyCommit "sha1" "Alice" "a@example.com" now
    ("Initial commit" ++ String newline "Details").

Definition commit_b : Commit :=
  DummyCommit "sha2" "Bob" "b@example.com" (now - day) "Bug fix".

(** A commit whose author is absent. *)
Definition commit_anon : Commit :=
  {| sha := "sha3"; commit := {| author := None; message := "Orphan" |} |}.

Definition issue_a : Issue :=
  DummyIssue 1 101 "Issue A" "alice" "open" t_2025_10_02 None 0 false.

Definition pr_a : Issue :=
  DummyIssue 2 102 "PR A" "bob" "closed" (now - 2 * day) (Some (now - day)) 2
    true.

Definition issue_b : Issue :=
  DummyIssue 3 103 "Issue B" "bob" "closed" (now - 2 * day) (Some now) 2 false.

(** An issue whose closing time is one microsecond before its creation
    time. *)
Definition issue_backdated : Issue :=
  DummyIssue 4 104 "Issue C" "carol" "closed" now (Some (now - 1)) 0 false.

(** A repository that ignores the state asked for. *)
Definition unfiltered_repo (issues : list Issue) : Repository :=
  {| get_commits := PEnd; get_issues := fun _ => of_list issues |}.



(* ================================================================== *)
(** * More notions and fixtures *)

(** The entries of [l], then whatever [rest] yields. *)
Fixpoint prepend {A : Type} (l : list A) (rest : paginated A) : paginated A :=
  match l with
  | [] => rest
  | a :: l' => PItem a (prepend l' rest)
  end.

(** The exception a paginated list raises when iterated to its end, if
    any. *)
Fixpoint pend {A : Type} (l : paginated A) : option exception :=
  match l with
  | PEnd => None
  | PRaise e => Some e
  | PItem _ rest => pend rest
  end.

(** The row of a record under given column labels. *)
Definition row_of (cols : list string) (d : dict) : list (option value) :=
  map (fun c => dict_get c d) cols.

(** A repository with the given listings, whatever the state asked for. *)
Definition lazy_repo (commits : paginated Commit) (issues : paginated Issue)
  : Repository :=
  {| get_commits := commits; get_issues := fun _ => issues |}.

(** A listing that yields one commit, then a commit without author, then
    fails. *)
Definition late_commits : paginated Commit :=
  prepend [commit_a]
    (PItem commit_anon (PRaise (GithubException "503"))).

(** A listing that yields three entries and then fails. *)
Definition late_issues : paginated Issue :=
  prepend [pr_a; issue_a; issue_b] (PRaise (GithubException "503")).

(* ================================================================== *)
(** * Strings: splitting at the first line break *)

Lemma str_split1_head (sep : ascii) (s : string) :
  exists others, str_split1 sep s = before_first sep s :: others.
Proof.
  induction s as [|c s IH]; simpl.
  - now exists [].
  - destruct (Ascii.eqb c sep).
    + now exists [s].
    + destruct IH as [others ->]. now exists others.
Qed.

Lemma index0_split1 (sep : ascii) (s : string) :
  index0 (str_split1 sep s) = Ok (before_first sep s).
Proof.
  destruct (str_split1_head sep s) as [others ->]. reflexivity.
Qed.

Lemma before_first_clean (c : ascii) (s : string) :
  occurs c (before_first c s) = false.
Proof.
  induction s as [|c' s IH]; simpl; [reflexivity|].
  destruct (Ascii.eqb c' c) eqn:E; simpl; [reflexivity|].
  now rewrite E, IH.
Qed.

Lemma before_first_split (c : ascii) (s : string) :
  (occurs c s = false /\ before_first c s = s) \/
  (exists tail, s = (before_first c s ++ String c tail)%string).
Proof.
  induction s as [|c' s IH]; simpl.
  - left. split; reflexivity.
  - destruct (Ascii.eqb c' c) eqn:E; simpl.
    + right. apply Ascii.eqb_eq in E. subst c'. now exists s.
    + destruct IH as [[Hno Heq]|[tail Heq]].
      * left. split; [exact Hno | now rewrite Heq].
      * right. exists tail. now rewrite <- Heq.
Qed.

(** A prefix free of [c] that is followed by [c] is the part before the
    first [c]: the decomposition of [before_first_split] is unique. *)
Lemma before_first_unique (c : ascii) (m tail : string) :
  occurs c m = false ->
  before_first c (m ++ String c tail)%string = m.
Proof.
  induction m as [|c' m IH]; simpl; intros H.
  - now rewrite Ascii.eqb_refl.
  - apply orb_false_iff in H as [H1 H2]. rewrite H1. now rewrite IH.
Qed.

Lemma before_first_id (c : ascii) (m : string) :
  occurs c m = false -> before_first c m = m.
Proof.
  induction m as [|c' m IH]; simpl; intros H; [reflexivity|].
  apply orb_false_iff in H as [H1 H2]. rewrite H1. now rewrite IH.
Qed.

(* ================================================================== *)
(** * Paginated lists *)

Section Paginated.
Variable A : Type.

Lemma pitems_of_list (l : list A) : pitems (of_list l) = l.
Proof. induction l; simpl; congruence. Qed.

Lemma ptake_of_list (n : nat) (l : list A) :
  ptake n (of_list l) = of_list (firstn n l).
Proof.
  revert l; induction n as [|n IH]; intros [|a l]; simpl; try reflexivity.
  now rewrite IH.
Qed.

Lemma pitems_ptake (n : nat) (l : paginated A) :
  pitems (ptake n l) = firstn n (pitems l).
Proof.
  revert l; induction n as [|n IH]; intros [|e|a l]; simpl; try reflexivity.
  now rewrite IH.
Qed.

Lemma pitems_then_raise (l : list A) (e : exception) :
  pitems (then_raise l e) = l.
Proof. induction l; simpl; congruence. Qed.

End Paginated.

(* ================================================================== *)
(** * Data frames *)

Lemma pd_DataFrame_len (records : list dict) :
  len (pd_DataFrame records) = Z.of_nat (List.length records).
Proof. unfold len, pd_DataFrame; simpl. now rewrite length_map. Qed.

Lemma pd_DataFrame_empty : pd_DataFrame [] = {| columns := []; rows := [] |}.
Proof. reflexivity. Qed.

Lemma fold_labels_fixed (K : list string) (records : list dict) :
  add_labels K K = K ->
  Forall (fun d => keys d = K) records ->
  fold_left (fun seen d => add_labels seen (keys d)) records K = K.
Proof.
  intros HK. induction 1 as [|d records Hd _ IH]; simpl; [reflexivity|].
  now rewrite Hd, HK.
Qed.

(** Records that all carry the same keys give these keys as columns,
    provided there is at least one record. *)
Lemma pd_DataFrame_columns (K : list string) (records : list dict) :
  add_labels [] K = K ->
  add_labels K K = K ->
  records <> [] ->
  Forall (fun d => keys d = K) records ->
  columns (pd_DataFrame records) = K.
Proof.
  intros H0 HK Hne Hall. destruct records as [|d records]; [congruence|].
  apply Forall_cons_iff in Hall as [Hd Hrest].
  unfold pd_DataFrame; simpl. rewrite Hd, H0.
  now apply fold_labels_fixed.
Qed.

Lemma pd_DataFrame_row (records : list dict) (i : nat) (d : dict) :
  nth_error records i = Some d ->
  nth_error (rows (pd_DataFrame records)) i =
  Some (map (fun c => dict_get c d) (columns (pd_DataFrame records))).
Proof.
  intros H. unfold pd_DataFrame at 1; simpl.
  rewrite nth_error_map, H. reflexivity.
Qed.

Lemma pd_DataFrame_cell (K : list string) (records : list dict) (i : nat)
  (d : dict) (c : string) :
  add_labels [] K = K ->
  add_labels K K = K ->
  Forall (fun d => keys d = K) records ->
  nth_error records i = Some d ->
  cell (pd_DataFrame records) i c = cell_at K (map (fun k => dict_get k d) K) c.
Proof.
  intros H0 HK Hall Hi. unfold cell.
  rewrite (pd_DataFrame_row _ _ _ Hi).
  rewrite (pd_DataFrame_columns K); auto.
  intros ->. destruct i; discriminate.
Qed.

(* ================================================================== *)
(** * The commit loop *)

Lemma commit_record_author (c : Commit) (a : GitAuthor) :
  author (commit c) = Some a -> commit_record c = Ok (commit_dict c a).
Proof.
  intros H. unfold commit_record. rewrite H, index0_split1. reflexivity.
Qed.

Lemma commit_record_anonymous (c : Commit) :
  author (commit c) = None -> commit_record c = Raise (none_has_no "name").
Proof. intros H. unfold commit_record. now rewrite H. Qed.

Lemma commit_record_total (c : Commit) :
  has_author c -> exists d, commit_record c = Ok d.
Proof.
  unfold has_author. destruct (author (commit c)) as [a|] eqn:E; [|congruence].
  intros _. exists (commit_dict c a). now apply commit_record_author.
Qed.

Lemma commit_record_inv (c : Commit) (d : dict) :
  commit_record c = Ok d ->
  exists a, author (commit c) = Some a /\ d = commit_dict c a.
Proof.
  destruct (author (commit c)) as [a|] eqn:E.
  - rewrite (commit_record_author c a E). intros [= <-]. now exists a.
  - rewrite (commit_record_anonymous c E). discriminate.
Qed.

Lemma commit_record_keys (c : Commit) (d : dict) :
  commit_record c = Ok d -> keys d = commit_columns.
Proof. intros H. apply commit_record_inv in H as (a & _ & ->). reflexivity. Qed.

Lemma recorded_total (cs : list Commit) :
  Forall has_author cs -> exists ds, recorded cs ds.
Proof.
  induction 1 as [|c cs Hc _ [ds IH]].
  - exists []. constructor.
  - destruct (commit_record_total c Hc) as [d Hd].
    exists (d :: ds). now constructor.
Qed.

Lemma recorded_keys (cs : list Commit) (ds : list dict) :
  recorded cs ds -> Forall (fun d => keys d = commit_columns) ds.
Proof.
  induction 1 as [|c d cs ds Hd _ IH]; constructor; [|exact IH].
  now apply commit_record_keys in Hd.
Qed.

Lemma commits_loop_of_list (cs : list Commit) (ds acc : list dict) :
  recorded cs ds -> commits_loop (of_list cs) acc = Ok (acc ++ ds)%list.
Proof.
  intros H. revert acc.
  induction H as [|c d cs ds Hd _ IH]; intros acc; simpl.
  - now rewrite app_nil_r.
  - rewrite Hd, IH, <- app_assoc. reflexivity.
Qed.

(** A loop that ends normally has met no exception and has appended the
    record of every entry, in order. *)
Lemma commits_loop_ok (l : paginated Commit) (acc out : list dict) :
  commits_loop l acc = Ok out ->
  exists ds, out = (acc ++ ds)%list /\ recorded (pitems l) ds.
Proof.
  revert acc. induction l as [|e|c rest IH]; intros acc; simpl.
  - intros [= <-]. exists []. split; [now rewrite app_nil_r | constructor].
  - discriminate.
  - destruct (commit_record c) as [d|e] eqn:Hd; [|discriminate].
    intros H. apply IH in H as (ds & -> & Hrec).
    exists (d :: ds). split; [now rewrite <- app_assoc | now constructor].
Qed.



(* ================================================================== *)
(** * The issue loop *)

Lemma issue_record_keys (i : Issue) : keys (issue_record i) = issue_columns.
Proof. reflexivity. Qed.

Lemma issue_records_keys (l : list Issue) :
  Forall (fun d => keys d = issue_columns) (map issue_record l).
Proof. apply Forall_map, Forall_forall. intros i _. reflexivity. Qed.

Lemma is_true_issue_spec (i : Issue) :
  is_true_issue i = true <-> pull_request i = None.
Proof.
  unfold is_true_issue. destruct (pull_request i); simpl; split; congruence.
Qed.

(** Without an effective cap the loop keeps exactly the entries that are
    not pull requests. *)
Lemma issues_loop_uncapped (m : option Z) (l : list Issue) (idx : Z)
  (acc : list dict) :
  truthy_int m = false ->
  issues_loop m (of_list l) idx acc =
  Ok (acc ++ map issue_record (true_issues l))%list.
Proof.
  intros Hm. revert idx acc.
  induction l as [|i l IH]; intros idx acc; simpl.
  - now rewrite app_nil_r.
  - rewrite Hm; simpl. unfold is_true_issue.
    destruct (truthy_obj (pull_request i)); simpl.
    + apply IH.
    + rewrite IH, <- app_assoc. reflexivity.
Qed.

(** With a non-zero cap [m] the loop looks at the entries of index below
    [m] only, and keeps those of them that are not pull requests. *)
Lemma issues_loop_capped (m : Z) (l : list Issue) (idx : Z) (acc : list dict) :
  m <> 0 ->
  issues_loop (Some m) (of_list l) idx acc =
  Ok (acc ++ map issue_record (true_issues (firstn (Z.to_nat (m - idx)) l)))%list.
Proof.
  intros Hm. revert idx acc.
  induction l as [|i l IH]; intros idx acc; simpl.
  - rewrite firstn_nil. simpl. now rewrite app_nil_r.
  - assert (Ht : negb (m =? 0) = true) by (apply negb_true_iff, Z.eqb_neq, Hm).
    rewrite Ht; simpl.
    destruct (idx >=? m) eqn:E.
    + assert (Z.to_nat (m - idx) = 0%nat) as -> by lia.
      simpl. now rewrite app_nil_r.
    + assert (Z.to_nat (m - idx) = S (Z.to_nat (m - (idx + 1)))) as -> by lia.
      simpl. unfold is_true_issue.
      destruct (truthy_obj (pull_request i)); simpl.
      * apply IH.
      * rewrite IH, <- app_assoc. reflexivity.
Qed.

(** Whatever the cap and the listing, a loop that ends normally has
    appended records of entries of the listing that are not pull
    requests. *)
Lemma issues_loop_ok (m : option Z) (l : paginated Issue) (idx : Z)
  (acc out : list dict) :
  issues_loop m l idx acc = Ok out ->
  exists kept,
    out = (acc ++ map issue_record kept)%list /\
    Forall (fun i => In i (pitems l) /\ pull_request i = None) kept.
Proof.
  revert idx acc. induction l as [|e|i rest IH]; intros idx acc; simpl.
  - intros [= <-]. exists []. split; [now rewrite app_nil_r | constructor].
  - discriminate.
  - destruct (truthy_int m &&
              match m with Some m0 => idx >=? m0 | None => false end).
    + intros [= <-]. exists []. split; [now rewrite app_nil_r | constructor].
    + destruct (pull_request i) as [pr|] eqn:Epr; simpl; intros H;
        apply IH in H as (kept & -> & Hall).
      * exists kept. split; [reflexivity|].
        eapply Forall_impl; [|exact Hall]. simpl. intros x [Hin Hx]. auto.
      * exists (i :: kept). split; [now rewrite <- app_assoc|].
        constructor; [auto|].
        eapply Forall_impl; [|exact Hall]. simpl. intros x [Hin Hx]. auto.
Qed.


(* ================================================================== *)
(** * Running the two fetchers *)

Lemma fetch_commits_no_repo (p : Platform) (repo_name : string)
  (max_commits : option Z) (e : exception) :
  get_repo (client p) repo_name = Raise e ->
  fetch_commits p repo_name max_commits =
  ([CallGithub (environ p "GITHUB_TOKEN"); CallGetRepo repo_name], Raise e).
Proof.
  unfold client, fetch_commits, calling, bind. intros ->. reflexivity.
Qed.

Lemma fetch_commits_run (p : Platform) (repo_name : string)
  (max_commits : option Z) (repo : Repository) :
  get_repo (client p) repo_name = Ok repo ->
  fetch_commits p repo_name max_commits =
  (commit_calls p repo_name,
   match commits_loop (retained max_commits (get_commits repo)) [] with
   | Ok dicts => Ok (pd_DataFrame dicts)
   | Raise e => Raise e
   end).
Proof.
  unfold client, fetch_commits, calling, lift, ret, bind, retained, commit_calls.
  intros ->. simpl.
  destruct (commits_loop _ []); reflexivity.
Qed.

Lemma fetch_issues_no_repo (p : Platform) (repo_name st : string)
  (max_issues : option Z) (e : exception) :
  get_repo (client p) repo_name = Raise e ->
  fetch_issues p repo_name st max_issues =
  ([CallGithub (environ p "GITHUB_TOKEN"); CallGetRepo repo_name], Raise e).
Proof.
  unfold client, fetch_issues, calling, bind. intros ->. reflexivity.
Qed.

Lemma fetch_issues_run (p : Platform) (repo_name st : string)
  (max_issues : option Z) (repo : Repository) :
  get_repo (client p) repo_name = Ok repo ->
  fetch_issues p repo_name st max_issues =
  (issue_calls p repo_name st,
   match issues_loop max_issues (get_issues repo st) 0 [] with
   | Ok records => Ok (pd_DataFrame records)
   | Raise e => Raise e
   end).
Proof.
  unfold client, fetch_issues, calling, lift, ret, bind, issue_calls.
  intros ->. simpl.
  destruct (issues_loop _ _ 0 []); reflexivity.
Qed.

(** A fetch of commits that returns a table got a repository, met no
    exception, and built the table from the records of the retained
    commits. *)
Lemma fetch_commits_ok (p : Platform) (repo_name : string)
  (max_commits : option Z) (df : DataFrame) :
  outcome (fetch_commits p repo_name max_commits) = Ok df ->
  exists repo ds,
    get_repo (client p) repo_name = Ok repo /\
    recorded (pitems (retained max_commits (get_commits repo))) ds /\
    df = pd_DataFrame ds.
Proof.
  destruct (get_repo (client p) repo_name) as [repo|e] eqn:Hrepo.
  - rewrite (fetch_commits_run _ _ _ _ Hrepo). unfold outcome; simpl.
    destruct (commits_loop _ []) as [out|e] eqn:Hloop; [|discriminate].
    intros [= <-]. apply commits_loop_ok in Hloop as (ds & -> & Hrec).
    now exists repo, ds.
  - rewrite (fetch_commits_no_repo _ _ _ _ Hrepo). discriminate.
Qed.

(** A fetch of issues that returns a table got a repository and built the
    table from the records of entries of the listing that are not pull
    requests. *)
Lemma fetch_issues_ok (p : Platform) (repo_name st : string)
  (max_issues : option Z) (df : DataFrame) :
  outcome (fetch_issues p repo_name st max_issues) = Ok df ->
  exists repo kept,
    get_repo (client p) repo_name = Ok repo /\
    Forall (fun i => In i (pitems (get_issues repo st)) /\
                     pull_request i = None) kept /\
    df = pd_DataFrame (map issue_record kept).
Proof.
  destruct (get_repo (client p) repo_name) as [repo|e] eqn:Hrepo.
  - rewrite (fetch_issues_run _ _ _ _ _ Hrepo). unfold outcome; simpl.
    destruct (issues_loop _ _ 0 []) as [out|e] eqn:Hloop; [|discriminate].
    intros [= <-]. apply issues_loop_ok in Hloop as (kept & -> & Hall).
    now exists repo, kept.
  - rewrite (fetch_issues_no_repo _ _ _ _ _ Hrepo). discriminate.
Qed.

(** The cells of the row built from an issue. *)
Lemma issue_cell (kept : list Issue) (i : nat) (x : Issue) (k : string) :
  nth_error kept i = Some x ->
  cell (pd_DataFrame (map issue_record kept)) i k =
  cell_at issue_columns
    (map (fun c => dict_get c (issue_record x)) issue_columns) k.
Proof.
  intros H. apply (pd_DataFrame_cell issue_columns);
    [reflexivity | reflexivity | apply issue_records_keys |].
  now rewrite nth_error_map, H.
Qed.

(** The cells of the row built from a commit. *)
Lemma commit_cell (cs : list Commit) (ds : list dict) (i : nat) (c : Commit)
  (k : string) :
  recorded cs ds ->
  nth_error cs i = Some c ->
  exists a,
    author (commit c) = Some a /\
    cell (pd_DataFrame ds) i k =
    cell_at commit_columns
      (map (fun x => dict_get x (commit_dict c a)) commit_columns) k.
Proof.
  intros Hrec Hi.
  assert (Hd : exists d, nth_error ds i = Some d /\ commit_record c = Ok d).
  { revert i Hi. induction Hrec as [|c' d' cs ds Hd _ IH]; intros [|i] Hi;
      simpl in *; try discriminate.
    - injection Hi as ->. now exists d'.
    - now apply IH. }
  destruct Hd as (d & Hi' & Hd).
  apply commit_record_inv in Hd as (a & Ha & ->).
  exists a. split; [exact Ha|].
  apply (pd_DataFrame_cell commit_columns);
    [reflexivity | reflexivity | eapply recorded_keys; eassumption | exact Hi'].
Qed.

Lemma recorded_length (cs : list Commit) (ds : list dict) :
  recorded cs ds -> List.length ds = List.length cs.
Proof. intros H. symmetry. eapply Forall2_length, H. Qed.

Lemma rows_length (records : list dict) :
  List.length (rows (pd_DataFrame records)) = List.length records.
Proof. unfold pd_DataFrame; simpl. apply length_map. Qed.

Lemma Forall_prefix {A : Type} (P : A -> Prop) (n : nat) (l : list A) :
  Forall P l -> Forall P (firstn n l).
Proof.
  intros H. revert n. induction H as [|x l Hx _ IH]; intros [|n]; simpl;
    constructor; auto.
Qed.

Lemma nth_error_in_range {A : Type} (l : list A) (i : nat) :
  (i < List.length l)%nat -> exists x, nth_error l i = Some x.
Proof.
  intros H. destruct (nth_error l i) as [x|] eqn:E; [now exists x|].
  apply nth_error_None in E. lia.
Qed.

(* ================================================================== *)
(** * Properties of fetch_commits *)

(** C4.  Over a collaborator that returns the [N] commits [cs] (each with
    an author), a fetch with a positive cap [C] returns a table of
    [min N C] rows, built from the first [C] commits in the collaborator's
    order: row [i] holds the commit of index [i].  A fetch without a cap
    returns [N] rows, again in the collaborator's order. *)
Theorem fetch_commits_cap (p : Platform) (repo_name : string)
  (repo : Repository) (cs : list Commit) :
  get_repo (client p) repo_name = Ok repo ->
  get_commits repo = of_list cs ->
  Forall has_author cs ->
  (forall C, 0 < C ->
     exists ds,
       fetch_commits p repo_name (Some C) =
         (commit_calls p repo_name, Ok (pd_DataFrame ds)) /\
       recorded (firstn (Z.to_nat C) cs) ds /\
       len (pd_DataFrame ds) = Z.min (Z.of_nat (List.length cs)) C /\
       forall i c, nth_error cs i = Some c -> Z.of_nat i < C ->
                   commit_row (pd_DataFrame ds) i c) /\
  (exists ds,
     fetch_commits p repo_name None =
       (commit_calls p repo_name, Ok (pd_DataFrame ds)) /\
     recorded cs ds /\
     len (pd_DataFrame ds) = Z.of_nat (List.length cs) /\
     forall i c, nth_error cs i = Some c -> commit_row (pd_DataFrame ds) i c).
Proof.
  intros Hrepo Hcs Hall.
  assert (Hrow : forall l ds i c, recorded l ds -> nth_error l i = Some c ->
                                  commit_row (pd_DataFrame ds) i c).
  { intros l ds i c Hrec Hi. unfold commit_row.
    destruct (commit_cell l ds i c "sha" Hrec Hi) as (a & Ha & Hsha).
    exists a. split; [exact Ha|].
    repeat split.
    - exact Hsha.
    - destruct (commit_cell l ds i c "author" Hrec Hi) as (a' & Ha' & H).
      rewrite Ha in Ha'. injection Ha' as <-. exact H.
    - destruct (commit_cell l ds i c "email" Hrec Hi) as (a' & Ha' & H).
      rewrite Ha in Ha'. injection Ha' as <-. exact H.
    - destruct (commit_cell l ds i c "date" Hrec Hi) as (a' & Ha' & H).
      rewrite Ha in Ha'. injection Ha' as <-. exact H. }
  split.
  - intros C HC.
    assert (Hfirst : Forall has_author (firstn (Z.to_nat C) cs))
      by (apply Forall_prefix, Hall).
    destruct (recorded_total _ Hfirst) as [ds Hrec].
    exists ds. repeat split.
    + rewrite (fetch_commits_run _ _ _ _ Hrepo). unfold retained, slice_to.
      rewrite Hcs, ptake_of_list.
      now rewrite (commits_loop_of_list _ ds [] Hrec).
    + exact Hrec.
    + rewrite pd_DataFrame_len, (recorded_length _ _ Hrec), length_firstn. lia.
    + intros i c Hi Hlt. apply (Hrow _ ds i c Hrec).
      rewrite nth_error_firstn.
      destruct (Nat.ltb_spec i (Z.to_nat C)); [exact Hi | lia].
  - destruct (recorded_total _ Hall) as [ds Hrec].
    exists ds. repeat split.
    + rewrite (fetch_commits_run _ _ _ _ Hrepo). unfold retained.
      rewrite Hcs. now rewrite (commits_loop_of_list _ ds [] Hrec).
    + exact Hrec.
    + now rewrite pd_DataFrame_len, (recorded_length _ _ Hrec).
    + intros i c Hi. now apply (Hrow cs ds i c Hrec).
Qed.

Lemma fetch_commits_cap_witness :
  let p := dummy_platform (DummyRepo [commit_a; commit_b] []) in
  get_repo (client p) "any/repo" = Ok (DummyRepo [commit_a; commit_b] []) /\
  Forall has_author [commit_a; commit_b] /\
  (exists ds,
     fetch_commits p "any/repo" (Some 1) =
       (commit_calls p "any/repo", Ok (pd_DataFrame ds)) /\
     len (pd_DataFrame ds) = 1 /\
     commit_row (pd_DataFrame ds) 0 commit_a) /\
  (exists ds,
     fetch_commits p "any/repo" None =
       (commit_calls p "any/repo", Ok (pd_DataFrame ds)) /\
     len (pd_DataFrame ds) = 2).
Proof.
  intros p.
  assert (Hrepo : get_repo (client p) "any/repo" =
                  Ok (DummyRepo [commit_a; commit_b] [])) by reflexivity.
  assert (Hall : Forall has_author [commit_a; commit_b])
    by (repeat constructor; discriminate).
  destruct (fetch_commits_cap p "any/repo" _ [commit_a; commit_b]
              Hrepo eq_refl Hall) as [Hcap (ds & Hrun & _ & Hlen & _)].
  split; [exact Hrepo|]. split; [exact Hall|]. split.
  - destruct (Hcap 1) as (ds1 & Hrun1 & _ & Hlen1 & Hrows); [lia|].
    exists ds1. split; [exact Hrun1|]. split; [exact Hlen1|].
    apply Hrows; [reflexivity | lia].
  - exists ds. split; [exact Hrun | exact Hlen].
Defined.

(** C5.  In the table a fetch of commits returns, the [message] cell of
    row [i] comes from the commit of index [i] in the collaborator's
    listing: it contains no line break, and it is the part of the
    commit's message before its first line break, that is the whole
    message when there is no line break in it. *)
Theorem fetch_commits_message (p : Platform) (repo_name : string)
  (max_commits : option Z) (df : DataFrame) :
  outcome (fetch_commits p repo_name max_commits) = Ok df ->
  forall i, (i < List.length (rows df))%nat ->
  exists repo c m,
    get_repo (client p) repo_name = Ok repo /\
    nth_error (pitems (get_commits repo)) i = Some c /\
    cell df i "message" = Some (VStr m) /\
    occurs newline m = false /\
    ((occurs newline (message (commit c)) = false /\ m = message (commit c)) \/
     (exists tail, message (commit c) = (m ++ String newline tail)%string)).
Proof.
  intros Hok i Hi.
  apply fetch_commits_ok in Hok as (repo & ds & Hrepo & Hrec & ->).
  rewrite rows_length, (recorded_length _ _ Hrec) in Hi.
  destruct (nth_error_in_range _ _ Hi) as [c Hc].
  destruct (commit_cell _ ds i c "message" Hrec Hc) as (a & _ & Hcell).
  exists repo, c, (before_first newline (message (commit c))).
  split; [exact Hrepo|]. split.
  - destruct max_commits as [n|]; simpl in Hc; [|exact Hc].
    unfold slice_to in Hc. rewrite pitems_ptake, nth_error_firstn in Hc.
    destruct (i <? Z.to_nat n)%nat; [exact Hc | discriminate].
  - split; [exact Hcell|]. split; [apply before_first_clean|].
    destruct (before_first_split newline (message (commit c)))
      as [[Hno Heq]|[tail Heq]].
    + left. split; [exact Hno | exact Heq].
    + right. now exists tail.
Qed.

Lemma fetch_commits_message_witness :
  exists df,
    outcome (fetch_commits (dummy_platform (DummyRepo [commit_a; commit_b] []))
               "any/repo" None) = Ok df /\
    (0 < List.length (rows df))%nat /\
    exists repo c m,
      get_repo (client (dummy_platform (DummyRepo [commit_a; commit_b] [])))
        "any/repo" = Ok repo /\
      nth_error (pitems (get_commits repo)) 0 = Some c /\
      cell df 0 "message" = Some (VStr m) /\
      occurs newline m = false /\
      ((occurs newline (message (commit c)) = false /\
        m = message (commit c)) \/
       (exists tail, message (commit c) = (m ++ String newline tail)%string)).
Proof.
  eexists. split; [vm_compute; reflexivity|].
  split; [simpl; lia|].
  apply (fetch_commits_message
           (dummy_platform (DummyRepo [commit_a; commit_b] []))
           "any/repo" None _ eq_refl 0%nat).
  simpl; lia.
Defined.

(* ================================================================== *)
(** * Properties of fetch_issues *)

(** C6.  Without a cap, over a listing [l] in which pull requests are
    interleaved in any way, the fetch returns one row per entry that is
    not flagged as a pull request ([K] rows for [K] such entries), in the
    listing's order, and every row is the row of such an entry. *)
Theorem fetch_issues_uncapped (p : Platform) (repo_name st : string)
  (repo : Repository) (l : list Issue) :
  get_repo (client p) repo_name = Ok repo ->
  get_issues repo st = of_list l ->
  exists df,
    fetch_issues p repo_name st None = (issue_calls p repo_name st, Ok df) /\
    len df =
      Z.of_nat (List.length
                  (filter (fun x => match pull_request x with
                                    | None => true
                                    | Some _ => false
                                    end) l)) /\
    forall i, (i < List.length (rows df))%nat ->
      exists x, nth_error (true_issues l) i = Some x /\
                In x l /\ pull_request x = None /\ issue_row df i x.
Proof.
  intros Hrepo Hl.
  exists (pd_DataFrame (map issue_record (true_issues l))).
  split; [|split].
  - rewrite (fetch_issues_run _ _ _ _ _ Hrepo), Hl.
    now rewrite (issues_loop_uncapped None l 0 [] eq_refl).
  - rewrite pd_DataFrame_len, length_map. f_equal. f_equal.
    unfold true_issues. apply filter_ext. intros x.
    unfold is_true_issue. now destruct (pull_request x).
  - intros i Hi. rewrite rows_length, length_map in Hi.
    destruct (nth_error_in_range _ _ Hi) as [x Hx].
    exists x. split; [exact Hx|].
    assert (Hin : In x (true_issues l)) by (eapply nth_error_In; exact Hx).
    apply filter_In in Hin as [Hin Htrue].
    split; [exact Hin|]. split; [now apply is_true_issue_spec|].
    unfold issue_row.
    now rewrite !(issue_cell _ i x _ Hx).
Qed.

Lemma fetch_issues_uncapped_witness :
  let p := dummy_platform (DummyRepo [] [issue_a; pr_a; issue_b]) in
  exists df,
    fetch_issues p "any/repo" "all" None =
      (issue_calls p "any/repo" "all", Ok df) /\
    len df = 2 /\
    forall i, (i < List.length (rows df))%nat ->
      exists x, nth_error (true_issues [issue_a; pr_a; issue_b]) i = Some x /\
                In x [issue_a; pr_a; issue_b] /\ pull_request x = None /\
                issue_row df i x.
Proof.
  intros p.
  exact (fetch_issues_uncapped p "any/repo" "all"
           (DummyRepo [] [issue_a; pr_a; issue_b]) [issue_a; pr_a; issue_b]
           eq_refl eq_refl).
Defined.

(** C7, as stated, fails: [timedelta.days] is the floor of the duration
    in days, not its truncation.  For an issue closed one microsecond
    before it was created the field is -1, where the truncated
    whole-day difference is 0. *)
Lemma fetch_issues_open_duration_floors :
  exists df,
    outcome (fetch_issues (dummy_platform (DummyRepo [] [issue_backdated]))
               "any/repo" "all" None) = Ok df /\
    (0 < List.length (rows df))%nat /\
    cell df 0 "created_at" = Some (VDatetime now) /\
    cell df 0 "closed_at" = Some (VDatetime (now - 1)) /\
    cell df 0 "open_duration_days" = Some (VInt (-1)) /\
    Z.quot ((now - 1) - now) usec_per_day = 0 /\
    cell df 0 "open_duration_days" <>
      Some (VInt (Z.quot ((now - 1) - now) usec_per_day)).
Proof.
  eexists. split; [vm_compute; reflexivity|].
  split; [simpl; lia|].
  split; [reflexivity|]. split; [reflexivity|]. split; [reflexivity|].
  split; [reflexivity|].
  intros H. vm_compute in H. discriminate.
Qed.

(** C7, amended.  In every row of the table a fetch of issues returns,
    [open_duration_days] is absent exactly when [closed_at] is absent;
    when [closed_at] is present it is the number of whole days from
    [created_at] to [closed_at]: the floor of the difference in days,
    which is its truncation whenever the issue was not closed before it
    was created. *)
Theorem fetch_issues_open_duration (p : Platform) (repo_name st : string)
  (max_issues : option Z) (df : DataFrame) :
  outcome (fetch_issues p repo_name st max_issues) = Ok df ->
  forall i, (i < List.length (rows df))%nat ->
  exists created closed_v duration_v,
    cell df i "created_at" = Some (VDatetime created) /\
    cell df i "closed_at" = Some closed_v /\
    cell df i "open_duration_days" = Some duration_v /\
    (duration_v = VNone <-> closed_v = VNone) /\
    (closed_v = VNone \/ exists closed, closed_v = VDatetime closed) /\
    forall closed, closed_v = VDatetime closed ->
      exists d,
        duration_v = VInt d /\
        d * usec_per_day <= closed - created < (d + 1) * usec_per_day /\
        (created <= closed -> d = Z.quot (closed - created) usec_per_day).
Proof.
  intros Hok i Hi.
  apply fetch_issues_ok in Hok as (repo & kept & _ & _ & ->).
  rewrite rows_length, length_map in Hi.
  destruct (nth_error_in_range _ _ Hi) as [x Hx].
  rewrite !(issue_cell _ i x _ Hx). simpl.
  exists (created_at x).
  destruct (closed_at x) as [closed|]; simpl.
  - exists (VDatetime closed), (VInt (days (datetime_sub closed (created_at x)))).
    repeat split; try discriminate.
    + right. now exists closed.
    + intros c [= <-]. unfold days, datetime_sub.
      exists ((closed - created_at x) / usec_per_day).
      assert (Hpos : 0 < usec_per_day) by (unfold usec_per_day; lia).
      split; [reflexivity|]. split.
      * pose proof (Z.mul_div_le (closed - created_at x) _ Hpos).
        pose proof (Z.mul_succ_div_gt (closed - created_at x) _ Hpos).
        lia.
      * intros Hle. symmetry. apply Z.quot_div_nonneg; lia.
  - exists VNone, VNone. repeat split; try discriminate.
    now left.
Qed.

Lemma fetch_issues_open_duration_witness :
  exists df,
    outcome (fetch_issues (dummy_platform (DummyRepo [] [issue_a; issue_b]))
               "any/repo" "all" None) = Ok df /\
    (1 < List.length (rows df))%nat /\
    cell df 1 "open_duration_days" = Some (VInt 2) /\
    exists created closed_v duration_v,
      cell df 1 "created_at" = Some (VDatetime created) /\
      cell df 1 "closed_at" = Some closed_v /\
      cell df 1 "open_duration_days" = Some duration_v /\
      (duration_v = VNone <-> closed_v = VNone) /\
      (closed_v = VNone \/ exists closed, closed_v = VDatetime closed) /\
      forall closed, closed_v = VDatetime closed ->
        exists d,
          duration_v = VInt d /\
          d * usec_per_day <= closed - created < (d + 1) * usec_per_day /\
          (created <= closed -> d = Z.quot (closed - created) usec_per_day).
Proof.
  eexists. split; [vm_compute; reflexivity|].
  split; [simpl; lia|]. split; [reflexivity|].
  apply (fetch_issues_open_duration
           (dummy_platform (DummyRepo [] [issue_a; issue_b]))
           "any/repo" "all" None _ eq_refl 1%nat).
  simpl; lia.
Defined.

(** C3.  The [user] cell of the row of an issue is the collaborator's
    user object itself, not the login string that names the author: for
    the issue of the tests opened by "alice" the cell holds the object
    whose login is "alice", and it is no string. *)
Theorem fetch_issues_user_not_a_string :
  exists df,
    outcome (fetch_issues (dummy_platform (DummyRepo [] [issue_a]))
               "any/repo" "all" None) = Ok df /\
    (0 < List.length (rows df))%nat /\
    cell df 0 "user" = Some (VUser {| login := "alice" |}) /\
    ~ (exists s, cell df 0 "user" = Some (VStr s)).
Proof.
  eexists. split; [vm_compute; reflexivity|].
  split; [simpl; lia|]. split; [reflexivity|].
  intros [s Hs]. vm_compute in Hs. discriminate.
Qed.

(** X9.  In every row of the table a fetch of issues returns, whatever
    the cap and the listing, the row is the row of an entry of the
    listing that is not a pull request, and the [user] cell
    holds the user object of an entry of the collaborator's listing that
    is not a pull request, as the collaborator gave it; the author's
    login is a field of that object, and no string is extracted from
    it. *)
Lemma fetch_issues_user_object (p : Platform) (repo_name st : string)
  (max_issues : option Z) (df : DataFrame) :
  outcome (fetch_issues p repo_name st max_issues) = Ok df ->
  forall i, (i < List.length (rows df))%nat ->
  exists repo x,
    get_repo (client p) repo_name = Ok repo /\
    In x (pitems (get_issues repo st)) /\
    pull_request x = None /\
    issue_row df i x /\
    cell df i "user" = Some (VUser (user x)) /\
    forall s, cell df i "user" <> Some (VStr s).
Proof.
  intros Hok i Hi.
  apply fetch_issues_ok in Hok as (repo & kept & Hrepo & Hall & ->).
  rewrite rows_length, length_map in Hi.
  destruct (nth_error_in_range _ _ Hi) as [x Hx].
  assert (Hin : In x kept) by (eapply nth_error_In; exact Hx).
  pose proof (proj1 (Forall_forall _ _) Hall x Hin) as [Hlist Hpr].
  exists repo, x. split; [exact Hrepo|]. split; [exact Hlist|].
  split; [exact Hpr|]. unfold issue_row.
  rewrite !(issue_cell _ i x _ Hx). simpl.
  repeat split. intros s. discriminate.
Qed.

Lemma fetch_issues_user_object_witness :
  exists df,
    outcome (fetch_issues (dummy_platform (DummyRepo [] [pr_a; issue_b]))
               "any/repo" "closed" (Some 5)) = Ok df /\
    (0 < List.length (rows df))%nat /\
    exists repo x,
      get_repo (client (dummy_platform (DummyRepo [] [pr_a; issue_b])))
        "any/repo" = Ok repo /\
      In x (pitems (get_issues repo "closed")) /\
      pull_request x = None /\
      issue_row df 0 x /\
      cell df 0 "user" = Some (VUser (user x)) /\
      forall s, cell df 0 "user" <> Some (VStr s).
Proof.
  eexists. split; [vm_compute; reflexivity|].
  split; [simpl; lia|].
  apply (fetch_issues_user_object
           (dummy_platform (DummyRepo [] [pr_a; issue_b]))
           "any/repo" "closed" (Some 5) _ eq_refl 0%nat).
  simpl; lia.
Defined.

(** C8, as stated, fails: over a collaborator that does not apply the
    state asked for, a fetch with the filter "closed" returns a row
    whose state is "open". *)
Lemma fetch_issues_state_not_enforced :
  exists df,
    outcome (fetch_issues (dummy_platform (unfiltered_repo [issue_a]))
               "any/repo" "closed" None) = Ok df /\
    (0 < List.length (rows df))%nat /\
    cell df 0 "state" = Some (VStr "open") /\
    cell df 0 "state" <> Some (VStr "closed").
Proof.
  eexists. split; [vm_compute; reflexivity|].
  split; [simpl; lia|]. split; [reflexivity|].
  intros H. vm_compute in H. discriminate.
Qed.

(** C8, amended.  The requested state is handed to the collaborator
    (the one call [get_issues(state=...)]) and the fetch does no
    filtering by state of its own: every row carries the state of an
    entry of the collaborator's listing.  Hence, whenever the listing
    the collaborator returns for a filter holds only entries in that
    state, every row's [state] equals the filter. *)
Theorem fetch_issues_state (p : Platform) (repo_name st : string)
  (max_issues : option Z) (df : DataFrame) :
  outcome (fetch_issues p repo_name st max_issues) = Ok df ->
  exists repo,
    get_repo (client p) repo_name = Ok repo /\
    calls (fetch_issues p repo_name st max_issues) = issue_calls p repo_name st /\
    (forall i, (i < List.length (rows df))%nat ->
       exists x, In x (pitems (get_issues repo st)) /\
                 cell df i "state" = Some (VStr (state x))) /\
    (Forall (fun x => state x = st) (pitems (get_issues repo st)) ->
     forall i, (i < List.length (rows df))%nat ->
       cell df i "state" = Some (VStr st)).
Proof.
  intros Hok.
  pose proof Hok as Hok'.
  apply fetch_issues_ok in Hok' as (repo & kept & Hrepo & Hall & ->).
  assert (Hrows : forall i,
             (i < List.length (rows (pd_DataFrame (map issue_record kept))))%nat ->
             exists x, In x (pitems (get_issues repo st)) /\
                       cell (pd_DataFrame (map issue_record kept)) i "state" =
                       Some (VStr (state x))).
  { intros i Hi. rewrite rows_length, length_map in Hi.
    destruct (nth_error_in_range _ _ Hi) as [x Hx].
    assert (Hin : In x kept) by (eapply nth_error_In; exact Hx).
    pose proof (proj1 (Forall_forall _ _) Hall x Hin) as [Hlist _].
    exists x. split; [exact Hlist|].
    now rewrite (issue_cell _ i x _ Hx). }
  exists repo. split; [exact Hrepo|]. split; [|split].
  - now rewrite (fetch_issues_run _ _ _ _ _ Hrepo).
  - exact Hrows.
  - intros Hst i Hi. destruct (Hrows i Hi) as (x & Hin & ->).
    now rewrite (proj1 (Forall_forall _ _) Hst x Hin).
Qed.

Lemma fetch_issues_state_witness :
  exists df,
    outcome (fetch_issues (dummy_platform (DummyRepo [] [issue_a; issue_b]))
               "any/repo" "closed" None) = Ok df /\
    Forall (fun x => state x = "closed")
      (pitems (get_issues (DummyRepo [] [issue_a; issue_b]) "closed")) /\
    (0 < List.length (rows df))%nat /\
    cell df 0 "state" = Some (VStr "closed").
Proof.
  eexists. split; [vm_compute; reflexivity|].
  assert (Hst : Forall (fun x => state x = "closed")
                  (pitems (get_issues (DummyRepo [] [issue_a; issue_b])
                             "closed")))
    by (repeat constructor).
  split; [exact Hst|]. split; [simpl; lia|].
  destruct (fetch_issues_state
              (dummy_platform (DummyRepo [] [issue_a; issue_b]))
              "any/repo" "closed" None _ eq_refl)
    as (repo & Hrepo & _ & _ & Hall).
  injection Hrepo as <-.
  apply (Hall Hst 0%nat). simpl; lia.
Defined.

(** With a non-zero cap the fetch looks at the entries of index below the
    cap, pull requests included, and returns those that are not pull
    requests. *)
Lemma fetch_issues_capped (p : Platform) (repo_name st : string)
  (repo : Repository) (l : list Issue) (C : Z) :
  get_repo (client p) repo_name = Ok repo ->
  get_issues repo st = of_list l ->
  C <> 0 ->
  fetch_issues p repo_name st (Some C) =
  (issue_calls p repo_name st,
   Ok (pd_DataFrame
         (map issue_record (true_issues (firstn (Z.to_nat C) l))))).
Proof.
  intros Hrepo Hl HC.
  rewrite (fetch_issues_run _ _ _ _ _ Hrepo), Hl.
  rewrite (issues_loop_capped C l 0 [] HC). simpl.
  now rewrite Z.sub_0_r.
Qed.

(** C1.  The cap is compared with the index of the entry in the listing,
    pull requests included: with the listing [pull request, issue,
    issue] and a cap of 2 the fetch returns one row, although the listing
    holds two entries that are not pull requests. *)
Theorem fetch_issues_cap_counts_pull_requests :
  exists df,
    fetch_issues (dummy_platform (DummyRepo [] [pr_a; issue_a; issue_b]))
      "any/repo" "all" (Some 2) =
    ([CallGithub (Some "fake-token"); CallGetRepo "any/repo";
      CallGetIssues "all"], Ok df) /\
    len df = 1 /\
    issue_row df 0 issue_a /\
    List.length (true_issues [pr_a; issue_a; issue_b]) = 2%nat.
Proof.
  eexists. split; [vm_compute; reflexivity|].
  repeat split.
Qed.

(** C2.  With nothing to put in it the table has no rows and no columns
    either: the column labels come from the keys of the records, and
    there is no record.  This holds for a repository without commits,
    and for a listing of issues that holds pull requests only. *)
Theorem fetch_empty_has_no_columns :
  (forall max_commits,
     fetch_commits (dummy_platform (DummyRepo [] [])) "any/repo" max_commits =
     ([CallGithub (Some "fake-token"); CallGetRepo "any/repo"; CallGetCommits],
      Ok {| columns := []; rows := [] |})) /\
  (forall max_issues,
     fetch_issues (dummy_platform (DummyRepo [] [])) "any/repo" "all"
       max_issues =
     ([CallGithub (Some "fake-token"); CallGetRepo "any/repo";
       CallGetIssues "all"],
      Ok {| columns := []; rows := [] |})) /\
  fetch_issues (dummy_platform (DummyRepo [] [pr_a])) "any/repo" "all" None =
    ([CallGithub (Some "fake-token"); CallGetRepo "any/repo";
      CallGetIssues "all"],
     Ok {| columns := []; rows := [] |}) /\
  columns {| columns := []; rows := [] |} <> commit_columns /\
  columns {| columns := []; rows := [] |} <> issue_columns.
Proof.
  split; [|split; [|split; [|split]]].
  - intros [n|]; [|reflexivity].
    rewrite (fetch_commits_run (dummy_platform (DummyRepo [] [])) "any/repo"
               (Some n) (DummyRepo [] []) eq_refl).
    unfold retained, slice_to. simpl get_commits.
    now destruct (Z.to_nat n).
  - intros m. reflexivity.
  - reflexivity.
  - discriminate.
  - discriminate.
Qed.

(* ================================================================== *)
(** * Exceptions *)

Lemma issues_loop_cap_zero (l : paginated Issue) (idx : Z) (acc : list dict) :
  issues_loop (Some 0) l idx acc = issues_loop None l idx acc.
Proof.
  revert idx acc. induction l as [|e|x rest IH]; intros idx acc; simpl;
    try reflexivity.
  destruct (negb (truthy_obj (pull_request x))); apply IH.
Qed.



(* ================================================================== *)
(** * A cap of zero *)

(** C10.  A cap of 0 does not mean the same to the two fetchers.  For
    issues it is no cap at all: the fetch behaves in every respect as
    the fetch without a cap, and over a listing [l] it returns every
    entry that is not a pull request.  For commits it is a cap: the
    fetch returns a table without rows, and does not even ask the
    listing for an entry. *)
Theorem cap_zero_asymmetry (p : Platform) (repo_name st : string) :
  fetch_issues p repo_name st (Some 0) = fetch_issues p repo_name st None /\
  (forall repo l,
     get_repo (client p) repo_name = Ok repo ->
     get_issues repo st = of_list l ->
     fetch_issues p repo_name st (Some 0) =
       (issue_calls p repo_name st,
        Ok (pd_DataFrame (map issue_record (true_issues l)))) /\
     len (pd_DataFrame (map issue_record (true_issues l))) =
       Z.of_nat (List.length (true_issues l))) /\
  (forall repo,
     get_repo (client p) repo_name = Ok repo ->
     fetch_commits p repo_name (Some 0) =
       (commit_calls p repo_name, Ok (pd_DataFrame [])) /\
     len (pd_DataFrame []) = 0).
Proof.
  split; [|split].
  - unfold fetch_issues, bind, calling, lift, ret.
    destruct (get_repo (Github p (environ p "GITHUB_TOKEN")) repo_name)
      as [repo|e]; [|reflexivity].
    now rewrite issues_loop_cap_zero.
  - intros repo l Hrepo Hl. split.
    + rewrite (fetch_issues_run _ _ _ _ _ Hrepo), Hl.
      now rewrite (issues_loop_uncapped (Some 0) l 0 [] eq_refl).
    + now rewrite pd_DataFrame_len, length_map.
  - intros repo Hrepo. split; [|reflexivity].
    now rewrite (fetch_commits_run _ _ _ _ Hrepo).
Qed.

Lemma cap_zero_asymmetry_witness :
  let repo := DummyRepo [commit_a; commit_b] [issue_a; pr_a; issue_b] in
  let p := dummy_platform repo in
  (fetch_issues p "any/repo" "all" (Some 0) =
     (issue_calls p "any/repo" "all",
      Ok (pd_DataFrame (map issue_record [issue_a; issue_b]))) /\
   len (pd_DataFrame (map issue_record [issue_a; issue_b])) = 2) /\
  (fetch_commits p "any/repo" (Some 0) =
     (commit_calls p "any/repo", Ok (pd_DataFrame [])) /\
   len (pd_DataFrame []) = 0).
Proof.
  intros repo p.
  destruct (cap_zero_asymmetry p "any/repo" "all") as (_ & Hissues & Hcommits).
  split.
  - exact (Hissues repo [issue_a; pr_a; issue_b] eq_refl eq_refl).
  - exact (Hcommits repo eq_refl).
Defined.

(* ================================================================== *)
(** * Further properties: caps, laziness, columns *)

Lemma ptake_prepend {A : Type} (n : nat) (l : list A) (rest : paginated A) :
  (n <= List.length l)%nat -> ptake n (prepend l rest) = of_list (firstn n l).
Proof.
  revert l. induction n as [|n IH]; intros [|a l]; simpl; intros H;
    try reflexivity; try lia.
  rewrite IH; [reflexivity | lia].
Qed.

Lemma filter_firstn_prefix {A : Type} (f : A -> bool) (k : nat) (l : list A) :
  exists n, filter f (firstn k l) = firstn n (filter f l).
Proof.
  revert l. induction k as [|k IH]; intros [|a l]; simpl;
    try (now exists 0%nat).
  destruct (IH l) as [n Hn]. destruct (f a).
  - exists (S n). simpl. now rewrite Hn.
  - now exists n.
Qed.

Lemma issues_loop_prepend (C : Z) (l : list Issue) (rest : paginated Issue)
  (idx : Z) (acc : list dict) :
  C <> 0 ->
  (Z.to_nat (C - idx) < List.length l)%nat ->
  issues_loop (Some C) (prepend l rest) idx acc =
  Ok (acc ++ map issue_record (true_issues (firstn (Z.to_nat (C - idx)) l)))%list.
Proof.
  intros HC. revert idx acc.
  induction l as [|x l IH]; intros idx acc Hlen; simpl in Hlen; [lia|].
  simpl prepend. simpl issues_loop.
  assert (Ht : negb (C =? 0) = true) by (apply negb_true_iff, Z.eqb_neq, HC).
  rewrite Ht; simpl.
  destruct (idx >=? C) eqn:E.
  - assert (Z.to_nat (C - idx) = 0%nat) as -> by lia.
    simpl. now rewrite app_nil_r.
  - assert (Hk : Z.to_nat (C - idx) = S (Z.to_nat (C - (idx + 1)))) by lia.
    rewrite Hk. simpl. unfold is_true_issue.
    destruct (truthy_obj (pull_request x)); simpl.
    + apply IH. lia.
    + rewrite IH, <- app_assoc; [reflexivity | lia].
Qed.

Lemma issues_loop_bound (C : Z) (l : paginated Issue) (idx : Z)
  (acc out : list dict) :
  C <> 0 ->
  issues_loop (Some C) l idx acc = Ok out ->
  exists kept,
    out = (acc ++ map issue_record kept)%list /\
    (List.length kept <= Z.to_nat (C - idx))%nat.
Proof.
  intros HC. revert idx acc.
  assert (Ht : negb (C =? 0) = true) by (apply negb_true_iff, Z.eqb_neq, HC).
  induction l as [|e|x rest IH]; intros idx acc; simpl.
  - intros [= <-]. exists []. split; [now rewrite app_nil_r | simpl; lia].
  - discriminate.
  - rewrite Ht; simpl. destruct (idx >=? C) eqn:E.
    + intros [= <-]. exists []. split; [now rewrite app_nil_r | simpl; lia].
    + destruct (negb (truthy_obj (pull_request x))); intros H;
        apply IH in H as (kept & -> & Hlen).
      * exists (x :: kept). split; [now rewrite <- app_assoc | simpl; lia].
      * exists kept. split; [reflexivity | lia].
Qed.

(** X1.  Over a complete listing and with a non-zero cap [C], the fetch
    of issues returns the entries that are not pull requests among the
    first [C] entries of the listing.  The table has at most [C] rows and
    at most as many as there are true issues, and a cap that is at least
    the number of entries changes nothing. *)
Theorem fetch_issues_cap_window (p : Platform) (repo_name st : string)
  (repo : Repository) (l : list Issue) (C : Z) :
  get_repo (client p) repo_name = Ok repo ->
  get_issues repo st = of_list l ->
  C <> 0 ->
  let df := pd_DataFrame
              (map issue_record (true_issues (firstn (Z.to_nat C) l))) in
  fetch_issues p repo_name st (Some C) = (issue_calls p repo_name st, Ok df) /\
  len df <= Z.max 0 C /\
  len df <= Z.of_nat (List.length (true_issues l)) /\
  (Z.of_nat (List.length l) <= C ->
   fetch_issues p repo_name st (Some C) = fetch_issues p repo_name st None).
Proof.
  intros Hrepo Hl HC df.
  assert (Hrun : fetch_issues p repo_name st (Some C) =
                 (issue_calls p repo_name st, Ok df))
    by exact (fetch_issues_capped p repo_name st repo l C Hrepo Hl HC).
  split; [exact Hrun|]. unfold df. rewrite pd_DataFrame_len, length_map.
  split; [|split].
  - unfold true_issues.
    pose proof (filter_length_le is_true_issue (firstn (Z.to_nat C) l)).
    pose proof (firstn_le_length (Z.to_nat C) l). lia.
  - unfold true_issues.
    destruct (filter_firstn_prefix is_true_issue (Z.to_nat C) l) as [n ->].
    pose proof (length_firstn n (filter is_true_issue l)). lia.
  - intros Hall. rewrite Hrun. unfold df.
    rewrite firstn_all2 by lia.
    rewrite (fetch_issues_run _ _ _ _ _ Hrepo), Hl.
    now rewrite (issues_loop_uncapped None l 0 [] eq_refl).
Qed.

Lemma fetch_issues_cap_window_witness :
  let repo := DummyRepo [] [pr_a; issue_a; issue_b] in
  let p := dummy_platform repo in
  let df := pd_DataFrame (map issue_record [issue_a]) in
  fetch_issues p "any/repo" "all" (Some 2) =
    (issue_calls p "any/repo" "all", Ok df) /\
  len df <= 2 /\
  len df <= 2.
Proof.
  intros repo p df.
  destruct (fetch_issues_cap_window p "any/repo" "all" repo
              [pr_a; issue_a; issue_b] 2 eq_refl eq_refl)
    as (Hrun & Hcap & Htrue & _); [lia|].
  split; [exact Hrun|]. split; [exact Hcap | exact Htrue].
Defined.

(** X2.  A table with at least one row has its columns in the order the
    record dict is written: sha, author, email, date, message for
    commits; id, number, title, user, state, created_at, closed_at,
    comments, open_duration_days for issues. *)
Theorem fetch_columns (p : Platform) (repo_name st : string)
  (max_commits max_issues : option Z) :
  (forall df,
     outcome (fetch_commits p repo_name max_commits) = Ok df ->
     rows df <> [] ->
     columns df = ["sha"; "author"; "email"; "date"; "message"]) /\
  (forall df,
     outcome (fetch_issues p repo_name st max_issues) = Ok df ->
     rows df <> [] ->
     columns df =
       ["id"; "number"; "title"; "user"; "state"; "created_at"; "closed_at";
        "comments"; "open_duration_days"]).
Proof.
  split; intros df Hok Hrows.
  - apply fetch_commits_ok in Hok as (repo & ds & _ & Hrec & ->).
    apply (pd_DataFrame_columns commit_columns);
      [reflexivity | reflexivity | | eapply recorded_keys; exact Hrec].
    intros ->. now apply Hrows.
  - apply fetch_issues_ok in Hok as (repo & kept & _ & _ & ->).
    apply (pd_DataFrame_columns issue_columns);
      [reflexivity | reflexivity | | apply issue_records_keys].
    intros E. rewrite E in Hrows. now apply Hrows.
Qed.

Lemma fetch_columns_witness :
  exists df df',
    outcome (fetch_commits (dummy_platform (DummyRepo [commit_a] [issue_a]))
               "any/repo" None) = Ok df /\
    outcome (fetch_issues (dummy_platform (DummyRepo [commit_a] [issue_a]))
               "any/repo" "all" None) = Ok df' /\
    columns df = ["sha"; "author"; "email"; "date"; "message"] /\
    columns df' =
      ["id"; "number"; "title"; "user"; "state"; "created_at"; "closed_at";
       "comments"; "open_duration_days"].
Proof.
  eexists. eexists.
  split; [vm_compute; reflexivity|]. split; [vm_compute; reflexivity|].
  destruct (fetch_columns (dummy_platform (DummyRepo [commit_a] [issue_a]))
              "any/repo" "all" None None) as [Hc Hi].
  split.
  - apply Hc; [reflexivity | discriminate].
  - apply Hi; [reflexivity | discriminate].
Defined.

(** X4.  A fetch of commits with a cap [C] that is not negative never
    touches what lies past the cap: when the listing yields at least
    [C] commits and the first [C] have an author, the fetch returns
    their [C] rows, whatever follows them in the listing, be it a commit
    without author or a page that fails to load. *)
Theorem fetch_commits_ignores_past_cap (p : Platform) (repo_name : string)
  (repo : Repository) (cs : list Commit) (rest : paginated Commit) (C : Z) :
  get_repo (client p) repo_name = Ok repo ->
  get_commits repo = prepend cs rest ->
  0 <= C ->
  (Z.to_nat C <= List.length cs)%nat ->
  Forall has_author (firstn (Z.to_nat C) cs) ->
  exists ds,
    fetch_commits p repo_name (Some C) =
      (commit_calls p repo_name, Ok (pd_DataFrame ds)) /\
    recorded (firstn (Z.to_nat C) cs) ds /\
    len (pd_DataFrame ds) = C.
Proof.
  intros Hrepo Hcs HC Hlen Hall.
  destruct (recorded_total _ Hall) as [ds Hrec].
  exists ds. split; [|split].
  - rewrite (fetch_commits_run _ _ _ _ Hrepo). unfold retained, slice_to.
    rewrite Hcs, (ptake_prepend _ _ _ Hlen).
    now rewrite (commits_loop_of_list _ ds [] Hrec).
  - exact Hrec.
  - rewrite pd_DataFrame_len, (recorded_length _ _ Hrec).
    rewrite firstn_length_le by exact Hlen. lia.
Qed.

Lemma fetch_commits_ignores_past_cap_witness :
  let p := dummy_platform (lazy_repo late_commits late_issues) in
  exists ds,
    fetch_commits p "any/repo" (Some 1) =
      (commit_calls p "any/repo", Ok (pd_DataFrame ds)) /\
    recorded [commit_a] ds /\
    len (pd_DataFrame ds) = 1 /\
    outcome (fetch_commits p "any/repo" None) = Raise (none_has_no "name").
Proof.
  intros p.
  destruct (fetch_commits_ignores_past_cap p "any/repo"
              (lazy_repo late_commits late_issues) [commit_a]
              (PItem commit_anon (PRaise (GithubException "503"))) 1
              eq_refl eq_refl) as (ds & Hrun & Hrec & Hlen).
  - lia.
  - simpl; lia.
  - repeat constructor; discriminate.
  - exists ds. split; [exact Hrun|]. split; [exact Hrec|].
    split; [exact Hlen | reflexivity].
Defined.

(** X5.  A capped fetch of issues stops at the entry of index [C]: when
    the listing yields more than [C] entries, the table holds the true
    issues among the first [C] of them, whatever follows in the listing.
    A negative cap stops at the very first entry, so the table is
    empty. *)
Theorem fetch_issues_ignores_past_cap (p : Platform) (repo_name st : string)
  (repo : Repository) (l : list Issue) (rest : paginated Issue) (C : Z) :
  get_repo (client p) repo_name = Ok repo ->
  get_issues repo st = prepend l rest ->
  C <> 0 ->
  (Z.to_nat C < List.length l)%nat ->
  fetch_issues p repo_name st (Some C) =
    (issue_calls p repo_name st,
     Ok (pd_DataFrame
           (map issue_record (true_issues (firstn (Z.to_nat C) l))))) /\
  (C < 0 ->
   fetch_issues p repo_name st (Some C) =
     (issue_calls p repo_name st, Ok {| columns := []; rows := [] |})).
Proof.
  intros Hrepo Hl HC Hlen.
  assert (Hrun : fetch_issues p repo_name st (Some C) =
    (issue_calls p repo_name st,
     Ok (pd_DataFrame
           (map issue_record (true_issues (firstn (Z.to_nat C) l)))))).
  { rewrite (fetch_issues_run _ _ _ _ _ Hrepo), Hl.
    rewrite (issues_loop_prepend C l rest 0 [] HC);
      rewrite Z.sub_0_r; [reflexivity | exact Hlen]. }
  split; [exact Hrun|].
  intros Hneg. rewrite Hrun.
  assert (Z.to_nat C = 0%nat) as -> by lia. reflexivity.
Qed.

Lemma fetch_issues_ignores_past_cap_witness :
  let p := dummy_platform (lazy_repo late_commits late_issues) in
  fetch_issues p "any/repo" "all" (Some 2) =
    (issue_calls p "any/repo" "all",
     Ok (pd_DataFrame (map issue_record [issue_a]))) /\
  fetch_issues p "any/repo" "all" (Some (-1)) =
    (issue_calls p "any/repo" "all", Ok {| columns := []; rows := [] |}) /\
  outcome (fetch_issues p "any/repo" "all" (Some 3)) =
    Raise (GithubException "503").
Proof.
  intros p. split; [|split].
  - apply (fetch_issues_ignores_past_cap p "any/repo" "all"
             (lazy_repo late_commits late_issues) [pr_a; issue_a; issue_b]
             (PRaise (GithubException "503")) 2 eq_refl eq_refl);
      [lia | simpl; lia].
  - apply (fetch_issues_ignores_past_cap p "any/repo" "all"
             (lazy_repo late_commits late_issues) [pr_a; issue_a; issue_b]
             (PRaise (GithubException "503")) (-1) eq_refl eq_refl);
      [lia | simpl; lia | lia].
  - reflexivity.
Defined.

(** X6.  The cap is an upper bound on the rows whatever the collaborator
    returns: a fetch of commits with a cap [C] that is not negative
    returns at most [C] rows, and a fetch of issues with a cap [C] other
    than 0 returns at most [max 0 C] rows. *)
Theorem fetch_cap_bounds_rows (p : Platform) (repo_name st : string) (C : Z) :
  (forall df,
     0 <= C ->
     outcome (fetch_commits p repo_name (Some C)) = Ok df ->
     len df <= C) /\
  (forall df,
     C <> 0 ->
     outcome (fetch_issues p repo_name st (Some C)) = Ok df ->
     len df <= Z.max 0 C).
Proof.
  split.
  - intros df HC Hok.
    apply fetch_commits_ok in Hok as (repo & ds & _ & Hrec & ->).
    rewrite pd_DataFrame_len, (recorded_length _ _ Hrec).
    simpl retained. unfold slice_to. rewrite pitems_ptake.
    pose proof (firstn_le_length (Z.to_nat C) (pitems (get_commits repo))).
    lia.
  - intros df HC Hok.
    destruct (get_repo (client p) repo_name) as [repo|e] eqn:Hrepo.
    + rewrite (fetch_issues_run _ _ _ _ _ Hrepo) in Hok.
      unfold outcome in Hok; simpl in Hok.
      destruct (issues_loop _ _ 0 []) as [out|e] eqn:Hloop; [|discriminate].
      injection Hok as <-.
      apply (issues_loop_bound C _ 0 [] out HC) in Hloop as (kept & -> & Hlen).
      simpl app. rewrite pd_DataFrame_len, length_map. lia.
    + rewrite (fetch_issues_no_repo _ _ _ _ _ Hrepo) in Hok. discriminate.
Qed.

Lemma fetch_cap_bounds_rows_witness :
  exists df df',
    outcome (fetch_commits (dummy_platform (lazy_repo late_commits late_issues))
               "any/repo" (Some 1)) = Ok df /\
    outcome (fetch_issues (dummy_platform (lazy_repo late_commits late_issues))
               "any/repo" "all" (Some 2)) = Ok df' /\
    len df <= 1 /\ len df' <= Z.max 0 2.
Proof.
  eexists. eexists.
  split; [vm_compute; reflexivity|]. split; [vm_compute; reflexivity|].
  destruct (fetch_cap_bounds_rows
              (dummy_platform (lazy_repo late_commits late_issues))
              "any/repo" "all" 1) as [Hc _].
  destruct (fetch_cap_bounds_rows
              (dummy_platform (lazy_repo late_commits late_issues))
              "any/repo" "all" 2) as [_ Hi].
  split.
  - apply Hc; [lia | reflexivity].
  - apply Hi; [lia | reflexivity].
Defined.

(* ================================================================== *)
(** * Further properties: where an exception can come from *)


Lemma issues_loop_raise (m : option Z) (l : paginated Issue) (idx : Z)
  (acc : list dict) (e : exception) :
  issues_loop m l idx acc = Raise e -> pend l = Some e.
Proof.
  revert idx acc. induction l as [|e'|x rest IH]; intros idx acc; simpl.
  - discriminate.
  - now intros [= ->].
  - destruct (truthy_int m &&
              match m with Some m0 => idx >=? m0 | None => false end);
      [discriminate|].
    destruct (negb (truthy_obj (pull_request x))); apply IH.
Qed.



(* ================================================================== *)
(** * Further properties: a capped table is the start of the full one *)

Lemma recorded_firstn (n : nat) (cs : list Commit) (ds : list dict) :
  recorded cs ds -> recorded (firstn n cs) (firstn n ds).
Proof.
  unfold recorded. intros H. revert n.
  induction H as [|c d cs ds Hd _ IH]; intros [|n]; simpl; constructor; auto.
Qed.

Lemma rows_uniform (K : list string) (records : list dict) :
  add_labels [] K = K ->
  add_labels K K = K ->
  Forall (fun d => keys d = K) records ->
  rows (pd_DataFrame records) = map (row_of K) records.
Proof.
  intros H0 HK Hall. destruct records as [|d records]; [reflexivity|].
  change (rows (pd_DataFrame (d :: records)))
    with (map (row_of (columns (pd_DataFrame (d :: records)))) (d :: records)).
  rewrite (pd_DataFrame_columns K); auto. discriminate.
Qed.

(** X10.  Over a listing of commits that all have an author, the table
    of a fetch with a cap [C] that is not negative is the first [C] rows
    of the table of the fetch without a cap: the cap only cuts the table
    short. *)
Theorem fetch_commits_cap_is_prefix (p : Platform) (repo_name : string)
  (repo : Repository) (cs : list Commit) (C : Z) :
  get_repo (client p) repo_name = Ok repo ->
  get_commits repo = of_list cs ->
  Forall has_author cs ->
  0 <= C ->
  exists df dfC,
    outcome (fetch_commits p repo_name None) = Ok df /\
    outcome (fetch_commits p repo_name (Some C)) = Ok dfC /\
    rows dfC = firstn (Z.to_nat C) (rows df).
Proof.
  intros Hrepo Hcs Hall HC.
  destruct (recorded_total _ Hall) as [ds Hrec].
  pose proof (recorded_firstn (Z.to_nat C) _ _ Hrec) as HrecC.
  exists (pd_DataFrame ds), (pd_DataFrame (firstn (Z.to_nat C) ds)).
  split; [|split].
  - rewrite (fetch_commits_run _ _ _ _ Hrepo). unfold retained.
    now rewrite Hcs, (commits_loop_of_list _ ds [] Hrec).
  - rewrite (fetch_commits_run _ _ _ _ Hrepo). unfold retained, slice_to.
    rewrite Hcs, ptake_of_list.
    now rewrite (commits_loop_of_list _ _ [] HrecC).
  - rewrite (rows_uniform commit_columns ds);
      [|reflexivity|reflexivity|eapply recorded_keys; exact Hrec].
    rewrite (rows_uniform commit_columns (firstn (Z.to_nat C) ds));
      [|reflexivity|reflexivity|eapply recorded_keys; exact HrecC].
    now rewrite firstn_map.
Qed.

Lemma fetch_commits_cap_is_prefix_witness :
  exists df dfC,
    outcome (fetch_commits (dummy_platform (DummyRepo [commit_a; commit_b] []))
               "any/repo" None) = Ok df /\
    outcome (fetch_commits (dummy_platform (DummyRepo [commit_a; commit_b] []))
               "any/repo" (Some 1)) = Ok dfC /\
    rows dfC = firstn 1 (rows df).
Proof.
  apply (fetch_commits_cap_is_prefix
           (dummy_platform (DummyRepo [commit_a; commit_b] [])) "any/repo"
           (DummyRepo [commit_a; commit_b] []) [commit_a; commit_b] 1
           eq_refl eq_refl).
  - repeat constructor; discriminate.
  - lia.
Defined.

(** X11.  Over a complete listing of issues, the table of a fetch with
    any cap is a start of the table of the fetch without a cap: the same
    rows in the same order, cut short. *)
Theorem fetch_issues_cap_is_prefix (p : Platform) (repo_name st : string)
  (repo : Repository) (l : list Issue) (cap : option Z) :
  get_repo (client p) repo_name = Ok repo ->
  get_issues repo st = of_list l ->
  exists df dfC n,
    outcome (fetch_issues p repo_name st None) = Ok df /\
    outcome (fetch_issues p repo_name st cap) = Ok dfC /\
    rows dfC = firstn n (rows df).
Proof.
  intros Hrepo Hl.
  assert (Hfull : outcome (fetch_issues p repo_name st None) =
                  Ok (pd_DataFrame (map issue_record (true_issues l)))).
  { rewrite (fetch_issues_run _ _ _ _ _ Hrepo), Hl.
    now rewrite (issues_loop_uncapped None l 0 [] eq_refl). }
  destruct (truthy_int cap) eqn:Ht.
  - destruct cap as [C|]; [|discriminate]. simpl in Ht.
    apply negb_true_iff, Z.eqb_neq in Ht.
    destruct (filter_firstn_prefix is_true_issue (Z.to_nat C) l) as [n Hn].
    exists (pd_DataFrame (map issue_record (true_issues l))),
           (pd_DataFrame
              (map issue_record (true_issues (firstn (Z.to_nat C) l)))), n.
    split; [exact Hfull|]. split.
    + now rewrite (fetch_issues_capped p repo_name st repo l C Hrepo Hl Ht).
    + rewrite !(rows_uniform issue_columns);
        try reflexivity; try apply issue_records_keys.
      unfold true_issues. now rewrite Hn, <- !firstn_map.
  - exists (pd_DataFrame (map issue_record (true_issues l))),
           (pd_DataFrame (map issue_record (true_issues l))),
           (List.length (rows (pd_DataFrame
                                 (map issue_record (true_issues l))))).
    split; [exact Hfull|]. split.
    + rewrite (fetch_issues_run _ _ _ _ _ Hrepo), Hl.
      now rewrite (issues_loop_uncapped cap l 0 [] Ht).
    + now rewrite firstn_all.
Qed.

Lemma fetch_issues_cap_is_prefix_witness :
  exists df dfC n,
    outcome (fetch_issues
               (dummy_platform (DummyRepo [] [issue_a; pr_a; issue_b]))
               "any/repo" "all" None) = Ok df /\
    outcome (fetch_issues
               (dummy_platform (DummyRepo [] [issue_a; pr_a; issue_b]))
               "any/repo" "all" (Some 2)) = Ok dfC /\
    rows dfC = firstn n (rows df).
Proof.
  exact (fetch_issues_cap_is_prefix
           (dummy_platform (DummyRepo [] [issue_a; pr_a; issue_b])) "any/repo"
           "all" (DummyRepo [] [issue_a; pr_a; issue_b])
           [issue_a; pr_a; issue_b] (Some 2) eq_refl eq_refl).
Defined.

(* ================================================================== *)
(** * Further properties: the collaborator of the tests *)

Lemma pend_of_list {A : Type} (l : list A) : pend (of_list l) = None.
Proof. induction l; simpl; auto. Qed.

(** X13.  Over the repository of the test suite, which filters its issues
    by state itself, a fetch with a state other than "all" returns a
    table for every cap, and every row of it has the state asked for. *)
Theorem fetch_issues_dummy_state (commits : list Commit) (issues : list Issue)
  (repo_name st : string) (max_issues : option Z) :
  st <> "all" ->
  exists df,
    outcome (fetch_issues (dummy_platform (DummyRepo commits issues))
               repo_name st max_issues) = Ok df /\
    forall i, (i < List.length (rows df))%nat ->
              cell df i "state" = Some (VStr st).
Proof.
  intros Hst.
  set (p := dummy_platform (DummyRepo commits issues)).
  assert (Hall : String.eqb st "all" = false) by now apply String.eqb_neq.
  assert (Hlist : get_issues (DummyRepo commits issues) st =
                  of_list (filter (fun i => String.eqb (state i) st) issues))
    by (simpl; now rewrite Hall).
  destruct (outcome (fetch_issues p repo_name st max_issues)) as [df|e] eqn:E.
  - exists df. split; [reflexivity|]. intros i Hi.
    apply fetch_issues_ok in E as (repo & kept & Hrepo & Hkept & ->).
    injection Hrepo as <-.
    rewrite rows_length, length_map in Hi.
    destruct (nth_error_in_range _ _ Hi) as [x Hx].
    assert (Hin : In x kept) by (eapply nth_error_In; exact Hx).
    pose proof (proj1 (Forall_forall _ _) Hkept x Hin) as [Hlisted _].
    rewrite Hlist, pitems_of_list in Hlisted.
    apply filter_In in Hlisted as [_ Hx_st]. apply String.eqb_eq in Hx_st.
    rewrite (issue_cell _ i x _ Hx). simpl. now rewrite Hx_st.
  - exfalso.
    rewrite (fetch_issues_run p repo_name st max_issues
               (DummyRepo commits issues) eq_refl) in E.
    rewrite Hlist in E. unfold outcome in E. cbn [snd] in E.
    destruct (issues_loop max_issues _ 0 []) as [out|e'] eqn:Hloop;
      [discriminate|].
    apply issues_loop_raise in Hloop.
    rewrite pend_of_list in Hloop. discriminate.
Qed.

Lemma fetch_issues_dummy_state_witness :
  exists df,
    outcome (fetch_issues
               (dummy_platform (DummyRepo [] [issue_a; pr_a; issue_b]))
               "any/repo" "closed" (Some 5)) = Ok df /\
    forall i, (i < List.length (rows df))%nat ->
              cell df i "state" = Some (VStr "closed").
Proof.
  apply (fetch_issues_dummy_state [] [issue_a; pr_a; issue_b] "any/repo"
           "closed" (Some 5)).
  discriminate.
Defined.
